(** * A model of backend_api/src/api/main.py: the in-memory to-do list API.

    The process-wide [_TASKS] dictionary and [_NEXT_ID] counter become a
    [Store] record threaded through the handlers by a small state and
    exception monad; an exception raised by a handler keeps the store as it
    was at the point of the raise, as in Python.  The FastAPI request layer
    (pydantic parsing of path parameters and bodies, 422 responses) is
    modelled in front of the handlers by [serve]. *)

From Stdlib Require Import ZArith String Ascii List Sorting.
From stdpp Require Import base gmap list sorting.

Open Scope Z_scope.

(** A Python [str] is its sequence of Unicode code points; [py] reads an
    ASCII literal as one. *)
Abbreviation pystr := (list Z).

Definition py (s : string) : pystr :=
  map (fun a => Z.of_nat (nat_of_ascii a)) (list_ascii_of_string s).

(** ** Data model *)

(** [class TaskStatus(str, Enum)] *)
Inductive TaskStatus := pending | completed.

(** [class Task(TaskBase)]: id, title, description, status. *)
Record Task := mkTask {
  id : Z;
  title : pystr;
  description : pystr;
  status : TaskStatus
}.

(** [TaskCreate] / [TaskUpdate] (both are [TaskBase]) after pydantic
    parsing: all three fields present. *)
Record TaskBase := mkTaskBase {
  tb_title : pystr;
  tb_description : pystr;
  tb_status : TaskStatus
}.

(** A field of [TaskPatch] after parsing: not sent (unset), sent as JSON
    [null], or sent with a value.  [model_dump(exclude_unset=True)] keeps
    the last two. *)
Inductive PatchField (A : Type) := Unset | SetNone | SetVal (a : A).
Arguments Unset {A}.
Arguments SetNone {A}.
Arguments SetVal {A} a.

(** [class TaskPatch(BaseModel)] after parsing. *)
Record TaskPatch := mkTaskPatch {
  tp_title : PatchField pystr;
  tp_description : PatchField pystr;
  tp_status : PatchField TaskStatus
}.

(** The module globals [_TASKS: Dict[int, Task]] and [_NEXT_ID]. *)
Record Store := mkStore {
  tasks : gmap Z Task;
  next_id : Z
}.

(** [_TASKS = {}], [_NEXT_ID = 1] *)
Definition empty_store : Store := mkStore ∅ 1.

(** ** The handler monad: state passing with Python exceptions *)

(** Outcome of a handler: a return value, an [HTTPException] with its
    status code, or an exception FastAPI does not handle (pydantic's
    [ValidationError] raised inside the handler body). *)
Inductive Result (A : Type) :=
  | Ok (a : A)
  | HTTPError (code : Z)
  | Unhandled.
Arguments Ok {A} a.
Arguments HTTPError {A} code.
Arguments Unhandled {A}.

Definition M (A : Type) := Store -> Result A * Store.

Definition ret {A} (a : A) : M A := fun s => (Ok a, s).
Definition raise_http {A} (code : Z) : M A := fun s => (HTTPError code, s).
Definition raise_unhandled {A} : M A := fun s => (Unhandled, s).

Definition bind {A B} (m : M A) (k : A -> M B) : M B :=
  fun s => match m s with
           | (Ok a, s') => k a s'
           | (HTTPError c, s') => (HTTPError c, s')
           | (Unhandled, s') => (Unhandled, s')
           end.

Notation "'let*' x := m 'in' k" := (bind m (fun x => k))
  (at level 200, x name, m at level 100, k at level 200).
Notation "m ;;; k" := (bind m (fun _ => k))
  (at level 100, right associativity).

Definition get_store : M Store := fun s => (Ok s, s).
Definition put_store (s' : Store) : M unit := fun _ => (Ok tt, s').

(** ** Python strings *)

(** [str.isspace], the test [str.strip()] uses: the code points
    U+0009-U+000D, U+001C-U+001F, U+0020, U+0085, U+00A0, U+1680,
    U+2000-U+200A, U+2028, U+2029, U+202F, U+205F and U+3000. *)
Definition is_space (c : Z) : bool :=
  ((9 <=? c) && (c <=? 13)) || ((28 <=? c) && (c <=? 32)) ||
  (c =? 133) || (c =? 160) || (c =? 5760) ||
  ((8192 <=? c) && (c <=? 8202)) || (c =? 8232) || (c =? 8233) ||
  (c =? 8239) || (c =? 8287) || (c =? 12288).

Fixpoint drop_spaces (l : pystr) : pystr :=
  match l with
  | [] => []
  | c :: l' => if is_space c then drop_spaces l' else l
  end.

(** [s.strip()]: drop leading, then trailing whitespace. *)
Definition strip (s : pystr) : pystr :=
  rev (drop_spaces (rev (drop_spaces s))).

Definition str_eqb (a b : pystr) : bool := bool_decide (a = b).

(** ** Pydantic construction of a [Task]

    [Task(id=..., title=..., description=..., status=...)] validates its
    arguments: [id >= 1], [title] a str of length at least 1,
    [description] a str, [status] a [TaskStatus].  A Python [None]
    argument is [None] here.  Any violation raises [ValidationError]. *)
Definition task_of_fields (i : Z) (ti : option pystr) (de : option pystr)
    (st : option TaskStatus) : option Task :=
  match ti, de, st with
  | Some t, Some d, Some s =>
      if (1 <=? i) && (1 <=? Z.of_nat (length t))
      then Some (mkTask i t d s)
      else None
  | _, _, _ => None
  end.

Definition Task_validate (i : Z) (ti : option pystr) (de : option pystr)
    (st : option TaskStatus) : M Task :=
  match task_of_fields i ti de st with
  | Some t => ret t
  | None => raise_unhandled
  end.

(** [task.model_dump()], as a dictionary with every key present. *)
Record TaskDict := mkTaskDict {
  d_id : Z;
  d_title : option pystr;
  d_description : option pystr;
  d_status : option TaskStatus
}.

Definition model_dump (t : Task) : TaskDict :=
  mkTaskDict (id t) (Some (title t)) (Some (description t)) (Some (status t)).

(** [dict.update] with the keys of [payload.model_dump(exclude_unset=True)]:
    an unset field leaves the key alone, a field sent as [null] stores
    [None], a field sent with a value stores the value. *)
Definition update_field {A} (old : option A) (f : PatchField A) : option A :=
  match f with
  | Unset => old
  | SetNone => None
  | SetVal a => Some a
  end.

Definition dict_update (d : TaskDict) (p : TaskPatch) : TaskDict :=
  mkTaskDict (d_id d)
    (update_field (d_title d) (tp_title p))
    (update_field (d_description d) (tp_description p))
    (update_field (d_status d) (tp_status p)).

(** ** Handlers *)

(** [_get_task_or_404] *)
Definition get_task_or_404 (task_id : Z) : M Task :=
  let* s := get_store in
  match tasks s !! task_id with
  | None => raise_http 404
  | Some t => ret t
  end.

(** [list_tasks]: [sorted(_TASKS.values(), key=lambda t: t.id)]. *)
Definition id_le (a b : Task) : Prop := id a <= id b.
#[global] Instance id_le_dec : RelDecision id_le.
Proof. intros a b. unfold id_le. apply _. Defined.

Definition list_tasks : M (list Task) :=
  let* s := get_store in
  ret (merge_sort id_le (map snd (map_to_list (tasks s)))).

(** [create_task] *)
Definition create_task (payload : TaskBase) : M Task :=
  if str_eqb (strip (tb_title payload)) [] then raise_http 400 else
  let* s := get_store in
  let* task := Task_validate (next_id s) (Some (tb_title payload))
            (Some (tb_description payload)) (Some (tb_status payload)) in
  put_store (mkStore (<[next_id s := task]> (tasks s)) (next_id s + 1)) ;;;
  ret task.

(** [get_task] *)
Definition get_task (i : Z) : M Task := get_task_or_404 i.

(** [update_task] (PUT) *)
Definition update_task (payload : TaskBase) (i : Z) : M Task :=
  get_task_or_404 i ;;;
  (if str_eqb (strip (tb_title payload)) [] then raise_http 400 else
   let* updated := Task_validate i (Some (tb_title payload))
                (Some (tb_description payload)) (Some (tb_status payload)) in
   let* s := get_store in
   put_store (mkStore (<[i := updated]> (tasks s)) (next_id s)) ;;;
   ret updated).

(** The title guard of [patch_task]:
    [if "title" in patch_data and patch_data["title"] is not None]. *)
Definition patch_title_rejected (p : TaskPatch) : bool :=
  match tp_title p with
  | SetVal t => str_eqb (strip t) []
  | _ => false
  end.

(** [patch_task] (PATCH) *)
Definition patch_task (payload : TaskPatch) (i : Z) : M Task :=
  let* existing := get_task_or_404 i in
  if patch_title_rejected payload then raise_http 400 else
  let new_data := dict_update (model_dump existing) payload in
  let* updated := Task_validate (d_id new_data) (d_title new_data)
               (d_description new_data) (d_status new_data) in
  let* s := get_store in
  put_store (mkStore (<[i := updated]> (tasks s)) (next_id s)) ;;;
  ret updated.

(** [delete_task] *)
Definition delete_task (i : Z) : M unit :=
  get_task_or_404 i ;;;
  let* s := get_store in
  put_store (mkStore (delete i (tasks s)) (next_id s)).

(** ** The FastAPI request layer *)

(** JSON values a body field can carry. *)
Inductive json :=
  | JNull
  | JStr (s : pystr)
  | JInt (z : Z)
  | JBool (b : bool).

(** A JSON object body; [None] is a key that is not sent.  Other keys are
    ignored by pydantic and are not modelled. *)
Record Body := mkBody {
  b_title : option json;
  b_description : option json;
  b_status : option json
}.

(** Parsing errors become a 422 response before the handler runs. *)
Definition parse_str (min_len : nat) (v : json) : option pystr :=
  match v with
  | JStr s => if (min_len <=? length s)%nat then Some s else None
  | _ => None
  end.

Definition status_of_string (s : pystr) : option TaskStatus :=
  if str_eqb s (py "pending") then Some pending
  else if str_eqb s (py "completed") then Some completed
  else None.

Definition string_of_status (st : TaskStatus) : pystr :=
  match st with
  | pending => py "pending"
  | completed => py "completed"
  end.

Definition parse_status (v : json) : option TaskStatus :=
  match v with
  | JStr s => status_of_string s
  | _ => None
  end.

(** [TaskBase]: [title: str = Field(..., min_length=1)],
    [description: str = Field(...)], [status: TaskStatus = Field(...)]. *)
Definition parse_TaskBase (b : Body) : option TaskBase :=
  match b_title b, b_description b, b_status b with
  | Some ti, Some de, Some st =>
      match parse_str 1 ti, parse_str 0 de, parse_status st with
      | Some ti', Some de', Some st' => Some (mkTaskBase ti' de' st')
      | _, _, _ => None
      end
  | _, _, _ => None
  end.

(** An [Optional[...] = Field(None, ...)] field: absent is unset, [null] is
    an explicit [None], anything else goes through the inner parser. *)
Definition parse_optional {A} (p : json -> option A) (v : option json)
    : option (PatchField A) :=
  match v with
  | None => Some Unset
  | Some JNull => Some SetNone
  | Some v' => match p v' with Some a => Some (SetVal a) | None => None end
  end.

(** [TaskPatch] *)
Definition parse_TaskPatch (b : Body) : option TaskPatch :=
  match parse_optional (parse_str 1) (b_title b),
        parse_optional (parse_str 0) (b_description b),
        parse_optional parse_status (b_status b) with
  | Some ti, Some de, Some st => Some (mkTaskPatch ti de st)
  | _, _, _ => None
  end.

(** [id: int = Path(..., ge=1)] *)
Definition parse_path_id (i : Z) : option Z := if 1 <=? i then Some i else None.

Inductive Request :=
  | ReqHealth
  | ReqList
  | ReqCreate (b : Body)
  | ReqGet (i : Z)
  | ReqPut (i : Z) (b : Body)
  | ReqPatch (i : Z) (b : Body)
  | ReqDelete (i : Z).

Inductive Response :=
  | RespHealthy
  | RespTasks (l : list Task)
  | RespTask (code : Z) (t : Task)
  | RespNoContent
  | RespError (code : Z).

(** Response shaping: the route's success code, the [HTTPException]'s code,
    or 500 for an exception the application does not handle. *)
Definition respond {A} (ok : A -> Response) (r : Result A * Store)
    : Response * Store :=
  match r with
  | (Ok a, s) => (ok a, s)
  | (HTTPError c, s) => (RespError c, s)
  | (Unhandled, s) => (RespError 500, s)
  end.

Definition serve (req : Request) (s : Store) : Response * Store :=
  match req with
  | ReqHealth => (RespHealthy, s)
  | ReqList => respond RespTasks (list_tasks s)
  | ReqCreate b =>
      match parse_TaskBase b with
      | Some p => respond (RespTask 201) (create_task p s)
      | None => (RespError 422, s)
      end
  | ReqGet i =>
      match parse_path_id i with
      | Some i' => respond (RespTask 200) (get_task i' s)
      | None => (RespError 422, s)
      end
  | ReqPut i b =>
      match parse_path_id i, parse_TaskBase b with
      | Some i', Some p => respond (RespTask 200) (update_task p i' s)
      | _, _ => (RespError 422, s)
      end
  | ReqPatch i b =>
      match parse_path_id i, parse_TaskPatch b with
      | Some i', Some p => respond (RespTask 200) (patch_task p i' s)
      | _, _ => (RespError 422, s)
      end
  | ReqDelete i =>
      match parse_path_id i with
      | Some i' => respond (fun _ => RespNoContent) (delete_task i' s)
      | None => (RespError 422, s)
      end
  end.

(** A sequence of requests served one after the other, with each request
    paired with its response. *)
Fixpoint run (reqs : list Request) (s : Store)
    : list (Request * Response) * Store :=
  match reqs with
  | [] => ([], s)
  | q :: qs =>
      let (r, s1) := serve q s in
      let (rs, s2) := run qs s1 in
      ((q, r) :: rs, s2)
  end.

(** The ids handed out by successful [POST /tasks] requests, in order. *)
Definition created_ids (trace : list (Request * Response)) : list Z :=
  flat_map (fun qr => match qr with
                      | (ReqCreate _, RespTask _ t) => [id t]
                      | _ => []
                      end) trace.

(** Stores reachable from the initial one. *)
Inductive reachable : Store -> Prop :=
  | reachable_init : reachable empty_store
  | reachable_step s req : reachable s -> reachable (snd (serve req s)).

Definition is_error (r : Response) : bool :=
  match r with RespError _ => true | _ => false end.

(** The store invariant. *)
Definition store_inv (s : Store) : Prop :=
  1 <= next_id s /\
  forall k t, tasks s !! k = Some t ->
    id t = k /\ 1 <= k /\ k < next_id s /\ strip (title t) <> [].

(** ** Reading of a partial update in the spec: every supplied field
    replaces the old value, every omitted one keeps it. *)
Definition patch_value {A} (old : A) (f : PatchField A) : A :=
  match f with
  | SetVal a => a
  | _ => old
  end.

Definition patched (t : Task) (p : TaskPatch) : Task :=
  mkTask (id t) (patch_value (title t) (tp_title p))
    (patch_value (description t) (tp_description p))
    (patch_value (status t) (tp_status p)).

(** Whether a field of the patch was sent as JSON [null]. *)
Definition is_none_field {A} (f : PatchField A) : bool :=
  match f with SetNone => true | _ => false end.

Definition has_null (p : TaskPatch) : bool :=
  is_none_field (tp_title p) || is_none_field (tp_description p)
  || is_none_field (tp_status p).

(** Strict order on ids, the order [list_tasks] is expected to follow. *)
Definition id_lt (a b : Task) : Prop := id a < id b.

(** Whether a request is a [DELETE]. *)
Definition is_delete (q : Request) : bool :=
  match q with ReqDelete _ => true | _ => false end.

(** [start, start + 1, ..., start + n - 1] *)
Fixpoint zrange (start : Z) (n : nat) : list Z :=
  match n with
  | O => []
  | S n' => start :: zrange (start + 1) n'
  end.

(** ** Equations of the handlers *)

Lemma strip_empty : strip [] = [].
Proof. reflexivity. Qed.

Lemma strip_nonempty_length (t : pystr) :
  str_eqb (strip t) [] = false -> (1 <=? Z.of_nat (length t)) = true.
Proof.
  destruct t as [|c t]; [discriminate|].
  intros _. simpl length. apply Z.leb_le. lia.
Qed.

Lemma str_eqb_spec (a b : pystr) : str_eqb a b = true <-> a = b.
Proof. unfold str_eqb. apply bool_decide_eq_true. Qed.

Lemma str_eqb_false (a b : pystr) : str_eqb a b = false <-> a <> b.
Proof. unfold str_eqb. apply bool_decide_eq_false. Qed.

Ltac unfold_monad :=
  unfold get_task_or_404, Task_validate, bind, get_store, put_store, ret,
    raise_http, raise_unhandled in *.

Lemma get_task_or_404_eq (i : Z) (s : Store) :
  get_task_or_404 i s =
    match tasks s !! i with
    | None => (HTTPError 404, s)
    | Some t => (Ok t, s)
    end.
Proof. unfold_monad. destruct (tasks s !! i); reflexivity. Qed.

Lemma list_tasks_eq (s : Store) :
  list_tasks s = (Ok (merge_sort id_le (map snd (map_to_list (tasks s)))), s).
Proof. reflexivity. Qed.

Lemma create_task_eq (p : TaskBase) (s : Store) :
  create_task p s =
    if str_eqb (strip (tb_title p)) [] then (HTTPError 400, s)
    else if 1 <=? next_id s then
      let t := mkTask (next_id s) (tb_title p) (tb_description p) (tb_status p) in
      (Ok t, mkStore (<[next_id s := t]> (tasks s)) (next_id s + 1))
    else (Unhandled, s).
Proof.
  unfold create_task, task_of_fields. unfold_monad.
  destruct (str_eqb (strip (tb_title p)) []) eqn:E; [reflexivity|].
  simpl. rewrite (strip_nonempty_length _ E), andb_true_r.
  destruct (1 <=? next_id s); reflexivity.
Qed.

Lemma update_task_eq (p : TaskBase) (i : Z) (s : Store) :
  update_task p i s =
    match tasks s !! i with
    | None => (HTTPError 404, s)
    | Some _ =>
        if str_eqb (strip (tb_title p)) [] then (HTTPError 400, s)
        else if 1 <=? i then
          let t := mkTask i (tb_title p) (tb_description p) (tb_status p) in
          (Ok t, mkStore (<[i := t]> (tasks s)) (next_id s))
        else (Unhandled, s)
    end.
Proof.
  unfold update_task, task_of_fields. unfold_monad.
  destruct (tasks s !! i); [|reflexivity].
  destruct (str_eqb (strip (tb_title p)) []) eqn:E; [reflexivity|].
  simpl. rewrite (strip_nonempty_length _ E), andb_true_r.
  destruct (1 <=? i); reflexivity.
Qed.

Lemma patch_task_eq (p : TaskPatch) (i : Z) (s : Store) :
  patch_task p i s =
    match tasks s !! i with
    | None => (HTTPError 404, s)
    | Some existing =>
        if patch_title_rejected p then (HTTPError 400, s)
        else
          match task_of_fields (id existing)
                  (update_field (Some (title existing)) (tp_title p))
                  (update_field (Some (description existing)) (tp_description p))
                  (update_field (Some (status existing)) (tp_status p)) with
          | Some t => (Ok t, mkStore (<[i := t]> (tasks s)) (next_id s))
          | None => (Unhandled, s)
          end
    end.
Proof.
  unfold patch_task. unfold_monad.
  destruct (tasks s !! i); [|reflexivity].
  destruct (patch_title_rejected p); [reflexivity|].
  destruct (task_of_fields _ _ _ _); reflexivity.
Qed.

Lemma delete_task_eq (i : Z) (s : Store) :
  delete_task i s =
    match tasks s !! i with
    | None => (HTTPError 404, s)
    | Some _ => (Ok tt, mkStore (delete i (tasks s)) (next_id s))
    end.
Proof. unfold delete_task. unfold_monad. destruct (tasks s !! i); reflexivity. Qed.

Lemma task_of_fields_some (i : Z) ti de st (t : Task) :
  task_of_fields i ti de st = Some t ->
  id t = i /\ ti = Some (title t) /\ 1 <= i /\
  de = Some (description t) /\ st = Some (status t).
Proof.
  unfold task_of_fields.
  destruct ti, de, st; try discriminate.
  destruct ((1 <=? i) && _) eqn:E; [|discriminate].
  apply andb_true_iff in E as [E _]. apply Z.leb_le in E.
  intros [= <-]. simpl. auto.
Qed.

(** Every request either changes neither the response class nor the
    counter, or is a successful create that hands out [next_id]. *)
Lemma serve_counter (q : Request) (s : Store) :
  match created_ids [(q, fst (serve q s))] with
  | [] => next_id (snd (serve q s)) = next_id s
  | [z] => z = next_id s /\ next_id (snd (serve q s)) = next_id s + 1
  | _ => False
  end.
Proof.
  destruct q as [| |b|i|i b|i b|i]; simpl; try reflexivity.
  - destruct (parse_TaskBase b) as [p|]; [|reflexivity].
    rewrite create_task_eq.
    destruct (str_eqb _ _); [reflexivity|].
    destruct (1 <=? next_id s); simpl; auto.
  - destruct (parse_path_id i) as [j|]; [|reflexivity].
    rewrite get_task_or_404_eq. destruct (tasks s !! j); reflexivity.
  - destruct (parse_path_id i) as [j|], (parse_TaskBase b); try reflexivity.
    rewrite update_task_eq. destruct (tasks s !! j); [|reflexivity].
    destruct (str_eqb _ _); [reflexivity|]. destruct (1 <=? _); reflexivity.
  - destruct (parse_path_id i) as [j|], (parse_TaskPatch b); try reflexivity.
    rewrite patch_task_eq. destruct (tasks s !! j); [|reflexivity].
    destruct (patch_title_rejected _); [reflexivity|].
    case_match; reflexivity.
  - destruct (parse_path_id i) as [j|]; [|reflexivity].
    rewrite delete_task_eq. destruct (tasks s !! j); reflexivity.
Qed.

Lemma created_ids_cons (q : Request) (r : Response) rs :
  created_ids ((q, r) :: rs) = created_ids [(q, r)] ++ created_ids rs.
Proof. unfold created_ids. simpl. rewrite app_nil_r. reflexivity. Qed.

Lemma run_cons (q : Request) qs (s : Store) :
  run (q :: qs) s =
    ((q, fst (serve q s)) :: fst (run qs (snd (serve q s))),
     snd (run qs (snd (serve q s)))).
Proof.
  simpl. destruct (serve q s) as [r s1]. simpl.
  destruct (run qs s1); reflexivity.
Qed.

Lemma created_ids_run (reqs : list Request) (s : Store) :
  StronglySorted Z.lt (created_ids (fst (run reqs s))) /\
  Forall (fun z => next_id s <= z < next_id (snd (run reqs s)))
    (created_ids (fst (run reqs s))) /\
  next_id s <= next_id (snd (run reqs s)).
Proof.
  revert s. induction reqs as [|q qs IH]; intros s.
  - simpl. split; [constructor|]. split; [constructor|lia].
  - rewrite run_cons. simpl fst. simpl snd. rewrite created_ids_cons.
    pose proof (serve_counter q s) as Hc.
    destruct (IH (snd (serve q s))) as (Hs & Hf & Hm).
    destruct (created_ids [(q, fst (serve q s))]) as [|z [|z' l]];
      [| |contradiction].
    + simpl. rewrite Hc in Hf, Hm. auto.
    + destruct Hc as [-> Hn]. rewrite Hn in Hf, Hm. simpl. split; [|split].
      * constructor; [exact Hs|].
        eapply Forall_impl; [exact Hf|]. simpl. intros. lia.
      * constructor; [lia|].
        eapply Forall_impl; [exact Hf|]. simpl. intros. lia.
      * lia.
Qed.

Lemma store_inv_empty : store_inv empty_store.
Proof.
  split; [simpl; lia|]. intros k t H. simpl in H. rewrite lookup_empty in H.
  discriminate.
Qed.

Lemma serve_store_inv (q : Request) (s : Store) :
  store_inv s -> store_inv (snd (serve q s)).
Proof.
  intros [Hn Hinv].
  destruct q as [| |b|i|i b|i b|i]; simpl; try (split; assumption).
  - destruct (parse_TaskBase b) as [p|]; [|split; assumption].
    rewrite create_task_eq.
    destruct (str_eqb _ _) eqn:E; [split; assumption|].
    destruct (1 <=? next_id s) eqn:E1; [|split; assumption].
    apply Z.leb_le in E1. apply str_eqb_false in E.
    split; simpl; [lia|]. intros k t Hk.
    rewrite lookup_insert in Hk. case_decide as Heq.
    + injection Hk as <-. simpl. subst k. repeat split; auto; lia.
    + destruct (Hinv k t Hk) as (? & ? & ? & ?). repeat split; auto; lia.
  - destruct (parse_path_id i) as [j|]; [|split; assumption].
    rewrite get_task_or_404_eq. destruct (tasks s !! j); split; assumption.
  - destruct (parse_path_id i) as [j|], (parse_TaskBase b) as [p|];
      try (split; assumption).
    rewrite update_task_eq. destruct (tasks s !! j) as [t0|] eqn:Hj;
      [|split; assumption].
    destruct (str_eqb _ _) eqn:E; [split; assumption|].
    destruct (1 <=? j) eqn:E1; [|split; assumption].
    apply Z.leb_le in E1. apply str_eqb_false in E.
    destruct (Hinv j t0 Hj) as (_ & _ & Hjn & _).
    split; simpl; [lia|]. intros k t Hk.
    rewrite lookup_insert in Hk. case_decide as Heq.
    + injection Hk as <-. simpl. subst k. repeat split; auto.
    + apply Hinv. exact Hk.
  - destruct (parse_path_id i) as [j|], (parse_TaskPatch b) as [p|];
      try (split; assumption).
    rewrite patch_task_eq. destruct (tasks s !! j) as [t0|] eqn:Hj;
      [|split; assumption].
    destruct (patch_title_rejected p) eqn:Hr; [split; assumption|].
    destruct (task_of_fields _ _ _ _) as [t1|] eqn:Ht; [|split; assumption].
    apply task_of_fields_some in Ht as (Hid & Hti & _).
    destruct (Hinv j t0 Hj) as (Hid0 & Hj1 & Hjn & Hs0).
    split; simpl; [lia|]. intros k t Hk.
    rewrite lookup_insert in Hk. case_decide as Heq.
    + injection Hk as <-. subst k. repeat split; try lia.
      unfold patch_title_rejected in Hr.
      destruct (tp_title p) as [| |ti]; simpl in Hti; [| discriminate |].
      * injection Hti as Hti. rewrite <- Hti. exact Hs0.
      * injection Hti as <-.
        apply str_eqb_false. exact Hr.
    + apply Hinv. exact Hk.
  - destruct (parse_path_id i) as [j|]; [|split; assumption].
    rewrite delete_task_eq. destruct (tasks s !! j); [|split; assumption].
    split; [exact Hn|]. intros k t1 Hk. simpl in Hk.
    rewrite lookup_delete in Hk. case_decide; [discriminate|].
    apply Hinv. exact Hk.
Qed.

Lemma reachable_store_inv (s : Store) : reachable s -> store_inv s.
Proof.
  induction 1.
  - apply store_inv_empty.
  - apply serve_store_inv. assumption.
Qed.

(** A request that is answered with an error leaves the store as it was. *)
Lemma serve_error_atomic (q : Request) (s : Store) :
  is_error (fst (serve q s)) = true -> snd (serve q s) = s.
Proof.
  destruct q as [| |b|i|i b|i b|i]; simpl; try discriminate.
  - destruct (parse_TaskBase b) as [p|]; [|reflexivity].
    rewrite create_task_eq.
    destruct (str_eqb _ _); [reflexivity|].
    destruct (1 <=? next_id s); simpl; [discriminate|reflexivity].
  - destruct (parse_path_id i) as [j|]; [|reflexivity].
    rewrite get_task_or_404_eq. destruct (tasks s !! j); reflexivity.
  - destruct (parse_path_id i) as [j|], (parse_TaskBase b); try reflexivity.
    rewrite update_task_eq. destruct (tasks s !! j); [|reflexivity].
    destruct (str_eqb _ _); [reflexivity|].
    destruct (1 <=? j); simpl; [discriminate|reflexivity].
  - destruct (parse_path_id i) as [j|], (parse_TaskPatch b); try reflexivity.
    rewrite patch_task_eq. destruct (tasks s !! j); [|reflexivity].
    destruct (patch_title_rejected _); [reflexivity|].
    case_match; simpl; [discriminate|reflexivity].
  - destruct (parse_path_id i) as [j|]; [|reflexivity].
    rewrite delete_task_eq. destruct (tasks s !! j); simpl;
      [discriminate|reflexivity].
Qed.

#[global] Instance id_le_trans : Transitive id_le.
Proof. intros a b c. unfold id_le. lia. Qed.

#[global] Instance id_le_total : Total id_le.
Proof. intros a b. unfold id_le. lia. Qed.

Lemma map_fmap_eq {A B} (f : A -> B) (l : list A) : map f l = f <$> l.
Proof. induction l as [|x l IH]; simpl; [reflexivity|]. rewrite IH. reflexivity. Qed.

Lemma sorted_lt_nodup (l : list Z) : StronglySorted Z.lt l -> NoDup l.
Proof.
  induction 1 as [|z l Hl IH Hz]; constructor; [|exact IH].
  intros Hin. eapply Forall_forall in Hz; [|exact Hin]. lia.
Qed.

Lemma sorted_le_nodup_lt (l : list Task) :
  StronglySorted id_le l -> NoDup (map id l) -> StronglySorted id_lt l.
Proof.
  induction 1 as [|x l Hl IH Hx]; intros Hnd; constructor.
  - apply IH. inversion Hnd; assumption.
  - inversion Hnd as [|? ? Hnin]. apply Forall_forall. intros y Hy.
    eapply Forall_forall in Hx; [|exact Hy]. unfold id_le in Hx. unfold id_lt.
    assert (id x <> id y); [|lia].
    intros Heq. apply Hnin. apply list_elem_of_In. rewrite Heq.
    apply in_map. apply list_elem_of_In. exact Hy.
Qed.

Lemma sorted_id_lt_map (l : list Task) :
  StronglySorted id_lt l -> StronglySorted Z.lt (map id l).
Proof.
  induction 1 as [|x l Hl IH Hx]; simpl; constructor; [exact IH|].
  apply Forall_map. exact Hx.
Qed.

Lemma in_values (m : gmap Z Task) (t : Task) :
  In t (map snd (map_to_list m)) <-> exists k, m !! k = Some t.
Proof.
  rewrite in_map_iff. split.
  - intros [[k t'] [Heq Hin]]. simpl in Heq. subst t'. exists k.
    apply elem_of_map_to_list. apply list_elem_of_In. exact Hin.
  - intros [k Hk]. exists (k, t). split; [reflexivity|].
    apply list_elem_of_In. apply elem_of_map_to_list. exact Hk.
Qed.

Lemma in_keys (m : gmap Z Task) (k : Z) :
  In k (map fst (map_to_list m)) <-> is_Some (m !! k).
Proof.
  rewrite in_map_iff. split.
  - intros [[k' t] [Heq Hin]]. simpl in Heq. subst k'. exists t.
    apply elem_of_map_to_list. apply list_elem_of_In. exact Hin.
  - intros [t Hk]. exists (k, t). split; [reflexivity|].
    apply list_elem_of_In. apply elem_of_map_to_list. exact Hk.
Qed.

Lemma ids_of_values (m : gmap Z Task) :
  (forall k t, m !! k = Some t -> id t = k) ->
  map id (map snd (map_to_list m)) = map fst (map_to_list m).
Proof.
  intros H. rewrite map_map. apply map_ext_in. intros [k t] Hin. simpl.
  apply H. apply elem_of_map_to_list. apply list_elem_of_In. exact Hin.
Qed.

(** What [list_tasks] returns on a store satisfying the invariant. *)
Lemma list_tasks_props (s : Store) :
  store_inv s ->
  let l := merge_sort id_le (map snd (map_to_list (tasks s))) in
  (forall t, In t l <-> exists k, tasks s !! k = Some t) /\
  StronglySorted id_lt l /\
  Permutation (map id l) (map fst (map_to_list (tasks s))).
Proof.
  intros [_ Hinv] l.
  pose proof (merge_sort_Permutation id_le (map snd (map_to_list (tasks s))))
    as Hp.
  assert (Hids : Permutation (map id l) (map fst (map_to_list (tasks s)))).
  { rewrite <- ids_of_values by (intros k t Hk; apply (Hinv k t Hk)).
    apply Permutation_map. exact Hp. }
  split; [|split].
  - intros t. rewrite <- in_values. split; intros Hin.
    + eapply Permutation_in; [exact Hp|exact Hin].
    + eapply Permutation_in; [symmetry; exact Hp|exact Hin].
  - apply sorted_le_nodup_lt.
    + apply StronglySorted_merge_sort; apply _.
    + rewrite Hids, map_fmap_eq. apply NoDup_fst_map_to_list.
  - exact Hids.
Qed.

Lemma run_reachable (reqs : list Request) (s : Store) :
  reachable s -> reachable (snd (run reqs s)).
Proof.
  revert s. induction reqs as [|q qs IH]; intros s Hs; [exact Hs|].
  rewrite run_cons. simpl. apply IH. apply reachable_step. exact Hs.
Qed.

Lemma lookup_insert_is_Some_same (m : gmap Z Task) (j k : Z) (t : Task) :
  is_Some (m !! j) -> (is_Some (<[j := t]> m !! k) <-> is_Some (m !! k)).
Proof.
  intros Hj. rewrite lookup_insert. case_decide as Heq; [subst k|reflexivity].
  split; intros _; [exact Hj|eexists; reflexivity].
Qed.

(** Outside deletes, the keys after a request are the keys before it and
    the id a create handed out. *)
Lemma serve_keys (q : Request) (s : Store) (k : Z) :
  is_delete q = false ->
  (is_Some (tasks (snd (serve q s)) !! k) <->
   is_Some (tasks s !! k) \/ In k (created_ids [(q, fst (serve q s))])).
Proof.
  intros Hd.
  destruct q as [| |b|i|i b|i b|i]; simpl; try discriminate;
    try (split; [left; assumption|intros [Hk|[]]; exact Hk]).
  - destruct (parse_TaskBase b) as [p|];
      [|simpl; split; [left; assumption|intros [Hk|[]]; exact Hk]].
    rewrite create_task_eq.
    destruct (str_eqb _ _);
      [simpl; split; [left; assumption|intros [Hk|[]]; exact Hk]|].
    destruct (1 <=? next_id s);
      [|simpl; split; [left; assumption|intros [Hk|[]]; exact Hk]].
    simpl. rewrite lookup_insert. case_decide as Heq.
    + subst k. split; [right; left; reflexivity|intros _; eexists; reflexivity].
    + split; [left; assumption|]. intros [H1|[H2|[]]]; [exact H1|congruence].
  - destruct (parse_path_id i) as [j|];
      [|simpl; split; [left; assumption|intros [Hk|[]]; exact Hk]].
    rewrite get_task_or_404_eq. destruct (tasks s !! j);
      simpl; split; (left; assumption) || (intros [Hk|[]]; exact Hk).
  - destruct (parse_path_id i) as [j|], (parse_TaskBase b) as [p|];
      try (simpl; split; [left; assumption|intros [Hk|[]]; exact Hk]).
    rewrite update_task_eq. destruct (tasks s !! j) eqn:Hj;
      [|simpl; split; [left; assumption|intros [Hk|[]]; exact Hk]].
    destruct (str_eqb _ _);
      [simpl; split; [left; assumption|intros [Hk|[]]; exact Hk]|].
    destruct (1 <=? j);
      [|simpl; split; [left; assumption|intros [Hk|[]]; exact Hk]].
    simpl. rewrite lookup_insert_is_Some_same by (rewrite Hj; eexists; reflexivity).
    split; [left; assumption|intros [Hk|[]]; exact Hk].
  - destruct (parse_path_id i) as [j|], (parse_TaskPatch b) as [p|];
      try (simpl; split; [left; assumption|intros [Hk|[]]; exact Hk]).
    rewrite patch_task_eq. destruct (tasks s !! j) eqn:Hj;
      [|simpl; split; [left; assumption|intros [Hk|[]]; exact Hk]].
    destruct (patch_title_rejected p);
      [simpl; split; [left; assumption|intros [Hk|[]]; exact Hk]|].
    case_match;
      [|simpl; split; [left; assumption|intros [Hk|[]]; exact Hk]].
    simpl. rewrite lookup_insert_is_Some_same by (rewrite Hj; eexists; reflexivity).
    split; [left; assumption|intros [Hk|[]]; exact Hk].
Qed.

Lemma length_zrange (start : Z) (n : nat) : length (zrange start n) = n.
Proof. revert start. induction n; intros; simpl; auto. Qed.

Lemma run_keys (reqs : list Request) (s : Store) :
  Forall (fun q => is_delete q = false) reqs ->
  forall k, is_Some (tasks (snd (run reqs s)) !! k) <->
            is_Some (tasks s !! k) \/ In k (created_ids (fst (run reqs s))).
Proof.
  revert s. induction reqs as [|q qs IH]; intros s Hd k.
  - simpl. split; [left; assumption|intros [Hk|[]]; exact Hk].
  - inversion Hd as [|? ? Hq Hqs]. subst.
    rewrite run_cons. simpl fst. simpl snd.
    rewrite created_ids_cons, in_app_iff, (IH _ Hqs k), (serve_keys q s k Hq).
    tauto.
Qed.

Lemma created_consecutive (reqs : list Request) (s : Store) :
  created_ids (fst (run reqs s)) =
    zrange (next_id s) (length (created_ids (fst (run reqs s)))).
Proof.
  revert s. induction reqs as [|q qs IH]; intros s; [reflexivity|].
  rewrite run_cons. simpl fst. rewrite created_ids_cons.
  pose proof (serve_counter q s) as Hc.
  rewrite (IH (snd (serve q s))).
  destruct (created_ids [(q, fst (serve q s))]) as [|z [|z' l]];
    [| |contradiction].
  - simpl. rewrite Hc, length_zrange. reflexivity.
  - destruct Hc as [-> Hn]. simpl. rewrite Hn, length_zrange. reflexivity.
Qed.

(** ** Witness inputs *)

Definition body_buy_milk : Body :=
  mkBody (Some (JStr (py "Buy milk"))) (Some (JStr (py "2%"))) (Some (JStr (py "pending"))).

(** The store after [POST /tasks] with [body_buy_milk]: task 1 present. *)
Definition store_one : Store := snd (serve (ReqCreate body_buy_milk) empty_store).

Lemma store_one_reachable : reachable store_one.
Proof. apply reachable_step. apply reachable_init. Qed.

(** ** Claims *)

(** C1: over any sequence of requests served from the initial store
    (creates interleaved with deletes, or anything else), the ids returned
    by successful creates are strictly increasing, hence pairwise distinct
    (never reused), and stay below the final [next_id]. *)
Theorem C1_create_ids_increasing (reqs : list Request) :
  StronglySorted Z.lt (created_ids (fst (run reqs empty_store))) /\
  NoDup (created_ids (fst (run reqs empty_store))) /\
  Forall (fun z => z < next_id (snd (run reqs empty_store)))
    (created_ids (fst (run reqs empty_store))).
Proof.
  destruct (created_ids_run reqs empty_store) as (Hs & Hf & _).
  split; [exact Hs|]. split.
  - clear Hf. induction Hs as [|z l Hl IH Hz]; constructor; [|exact IH].
    intros Hin. eapply Forall_forall in Hz; [|exact Hin]. lia.
  - eapply Forall_impl; [exact Hf|]. simpl. intros. lia.
Qed.

(** C5: get, replace, patch and delete answer [HTTPException(404)]
    exactly when the id is not a key of the store, whatever the payload;
    a get right after a delete of the same id answers 404. *)
Theorem C5_not_found_iff_absent (s : Store) (i : Z) (p : TaskBase)
    (pp : TaskPatch) :
  (fst (get_task i s) = HTTPError 404 <-> tasks s !! i = None) /\
  (fst (update_task p i s) = HTTPError 404 <-> tasks s !! i = None) /\
  (fst (patch_task pp i s) = HTTPError 404 <-> tasks s !! i = None) /\
  (fst (delete_task i s) = HTTPError 404 <-> tasks s !! i = None) /\
  fst (get_task i (snd (delete_task i s))) = HTTPError 404.
Proof.
  unfold get_task. rewrite update_task_eq, patch_task_eq, delete_task_eq.
  rewrite !get_task_or_404_eq.
  destruct (tasks s !! i) eqn:Hi.
  - simpl. rewrite lookup_delete_eq.
    repeat split; try discriminate.
    + destruct (str_eqb _ _); [discriminate|].
      destruct (1 <=? i); discriminate.
    + destruct (patch_title_rejected pp); [discriminate|].
      destruct (task_of_fields _ _ _ _); discriminate.
  - simpl. rewrite Hi. repeat split; reflexivity.
Qed.

(** C8: every request that is answered with an error (404, 400, 422, or
    the 500 of an exception raised inside a handler) leaves the task map
    and the id counter exactly as they were. *)
Theorem C8_failed_request_atomic (q : Request) (s : Store) :
  is_error (fst (serve q s)) = true -> snd (serve q s) = s.
Proof. apply serve_error_atomic. Qed.

Lemma C8_witness :
  is_error (fst (serve (ReqGet 7) store_one)) = true /\
  snd (serve (ReqGet 7) store_one) = store_one.
Proof.
  split; [vm_compute; reflexivity|].
  apply C8_failed_request_atomic. vm_compute. reflexivity.
Defined.

(** C9: in every reachable store each task is stored under its own id,
    ids are at least 1 and unique, every title is non-empty after
    [strip()], and every status is [pending] or [completed]; description
    and status are always present (they are fields of the record). *)
Theorem C9_reachable_tasks_valid (s : Store) :
  reachable s ->
  (forall k t, tasks s !! k = Some t ->
     id t = k /\ 1 <= id t /\ strip (title t) <> [] /\
     (status t = pending \/ status t = completed)) /\
  (forall k1 k2 t1 t2, tasks s !! k1 = Some t1 -> tasks s !! k2 = Some t2 ->
     id t1 = id t2 -> k1 = k2 /\ t1 = t2).
Proof.
  intros Hr. destruct (reachable_store_inv s Hr) as [_ Hinv]. split.
  - intros k t Hk. destruct (Hinv k t Hk) as (Hid & H1 & _ & Hst).
    repeat split; try lia; auto.
    destruct (status t); auto.
  - intros k1 k2 t1 t2 H1 H2 Heq.
    destruct (Hinv k1 t1 H1) as (Hid1 & _), (Hinv k2 t2 H2) as (Hid2 & _).
    assert (k1 = k2) as <- by congruence.
    split; congruence.
Qed.

Lemma C9_witness :
  reachable store_one /\
  (forall k t, tasks store_one !! k = Some t ->
     id t = k /\ 1 <= id t /\ strip (title t) <> [] /\
     (status t = pending \/ status t = completed)) /\
  (forall k1 k2 t1 t2, tasks store_one !! k1 = Some t1 ->
     tasks store_one !! k2 = Some t2 -> id t1 = id t2 -> k1 = k2 /\ t1 = t2).
Proof.
  split; [apply store_one_reachable|].
  apply C9_reachable_tasks_valid. apply store_one_reachable.
Defined.

Lemma update_field_some {A} (o x : A) (f : PatchField A) :
  update_field (Some o) f = Some x -> patch_value o f = x.
Proof. destruct f; simpl; congruence. Qed.

Lemma update_field_not_none {A} (o : A) (f : PatchField A) :
  is_none_field f = false -> update_field (Some o) f = Some (patch_value o f).
Proof. destruct f; simpl; congruence. Qed.

(** What a successful patch of a stored task computes. *)
Lemma patch_task_ok (s : Store) (i : Z) (t : Task) (p : TaskPatch) :
  store_inv s -> tasks s !! i = Some t ->
  has_null p = false -> patch_title_rejected p = false ->
  patch_task p i s =
    (Ok (patched t p), mkStore (<[i := patched t p]> (tasks s)) (next_id s)).
Proof.
  intros [_ Hinv] Hi Hn Hr. destruct (Hinv i t Hi) as (Hid & Hi1 & _ & Hs).
  rewrite patch_task_eq, Hi, Hr.
  unfold has_null in Hn. apply orb_false_iff in Hn as [Hn Hst].
  apply orb_false_iff in Hn as [Hti Hde].
  rewrite !update_field_not_none by assumption.
  unfold task_of_fields.
  replace (1 <=? id t) with true by (symmetry; apply Z.leb_le; lia).
  replace (1 <=? Z.of_nat (length (patch_value (title t) (tp_title p))))
    with true.
  - reflexivity.
  - symmetry. apply strip_nonempty_length.
    unfold patch_title_rejected in Hr.
    destruct (tp_title p); simpl; [apply str_eqb_false; exact Hs|
                                   apply str_eqb_false; exact Hs| exact Hr].
Qed.

(** C4: replacing a stored task with a payload whose title is non-empty
    after [strip()] stores and returns the payload's three fields under
    the same id, and a get right after returns exactly that task. *)
Theorem C4_replace_then_get (s : Store) (i : Z) (t0 : Task) (p : TaskBase) :
  reachable s -> tasks s !! i = Some t0 -> strip (tb_title p) <> [] ->
  let t := mkTask i (tb_title p) (tb_description p) (tb_status p) in
  update_task p i s = (Ok t, mkStore (<[i := t]> (tasks s)) (next_id s)) /\
  get_task i (snd (update_task p i s)) = (Ok t, snd (update_task p i s)).
Proof.
  intros Hr Hi Hti t.
  destruct (reachable_store_inv s Hr) as [_ Hinv].
  destruct (Hinv i t0 Hi) as (_ & Hi1 & _).
  assert (Hu : update_task p i s =
            (Ok t, mkStore (<[i := t]> (tasks s)) (next_id s))).
  { rewrite update_task_eq, Hi.
    apply str_eqb_false in Hti. rewrite Hti.
    replace (1 <=? i) with true by (symmetry; apply Z.leb_le; lia).
    reflexivity. }
  split; [exact Hu|]. rewrite Hu. unfold get_task.
  rewrite get_task_or_404_eq. simpl. rewrite lookup_insert_eq. reflexivity.
Qed.

Lemma C4_witness :
  reachable store_one /\
  tasks store_one !! 1 = Some (mkTask 1 (py "Buy milk") (py "2%") pending) /\
  strip (py "Walk dog") <> [] /\
  (let t := mkTask 1 (py "Walk dog") [] completed in
   update_task (mkTaskBase (py "Walk dog") [] completed) 1 store_one =
     (Ok t, mkStore (<[1 := t]> (tasks store_one)) (next_id store_one)) /\
   get_task 1 (snd (update_task (mkTaskBase (py "Walk dog") [] completed) 1 store_one))
     = (Ok t, snd (update_task (mkTaskBase (py "Walk dog") [] completed) 1 store_one))).
Proof.
  split; [apply store_one_reachable|].
  split; [vm_compute; reflexivity|].
  split; [vm_compute; discriminate|].
  apply (C4_replace_then_get store_one 1 (mkTask 1 (py "Buy milk") (py "2%") pending)
           (mkTaskBase (py "Walk dog") [] completed)).
  - apply store_one_reachable.
  - vm_compute. reflexivity.
  - vm_compute. discriminate.
Defined.

(** C3: on a stored task, a patch carrying only a description keeps id,
    title and status and sets the description; in general a patch with no
    [null] field that passes the title guard returns and stores the task
    with exactly the supplied fields replaced, and any successful patch
    has that result. *)
Theorem C3_patch_overwrites_supplied (s : Store) (i : Z) (t : Task) :
  reachable s -> tasks s !! i = Some t ->
  (forall d : pystr,
     let t' := mkTask (id t) (title t) d (status t) in
     id t = i /\
     patch_task (mkTaskPatch Unset (SetVal d) Unset) i s =
       (Ok t', mkStore (<[i := t']> (tasks s)) (next_id s))) /\
  (forall p, has_null p = false -> patch_title_rejected p = false ->
     patch_task p i s =
       (Ok (patched t p), mkStore (<[i := patched t p]> (tasks s)) (next_id s))) /\
  (forall p t', fst (patch_task p i s) = Ok t' -> t' = patched t p).
Proof.
  intros Hr Hi. pose proof (reachable_store_inv s Hr) as Hinv.
  split; [|split].
  - intros d t'. split; [apply (proj2 Hinv i t Hi)|].
    apply (patch_task_ok s i t (mkTaskPatch Unset (SetVal d) Unset));
      auto.
  - intros p. apply patch_task_ok; auto.
  - intros p t'. rewrite patch_task_eq, Hi.
    destruct (patch_title_rejected p); [discriminate|].
    destruct (task_of_fields _ _ _ _) as [t1|] eqn:Ht; [|discriminate].
    simpl. intros [= <-].
    apply task_of_fields_some in Ht as (Hid & Hti & _ & Hde & Hst).
    apply update_field_some in Hti, Hde, Hst.
    destruct t1. unfold patched. simpl in *. congruence.
Qed.

Lemma C3_witness :
  reachable store_one /\
  tasks store_one !! 1 = Some (mkTask 1 (py "Buy milk") (py "2%") pending) /\
  patch_task (mkTaskPatch Unset (SetVal (py "x")) Unset) 1 store_one =
    (Ok (mkTask 1 (py "Buy milk") (py "x") pending),
     mkStore (<[1 := mkTask 1 (py "Buy milk") (py "x") pending]> (tasks store_one))
       (next_id store_one)).
Proof.
  split; [apply store_one_reachable|].
  split; [vm_compute; reflexivity|].
  destruct (C3_patch_overwrites_supplied store_one 1
              (mkTask 1 (py "Buy milk") (py "2%") pending) store_one_reachable
              ltac:(vm_compute; reflexivity)) as [Hd _].
  exact (proj2 (Hd (py "x"))).
Defined.

(** C10: PATCH on a stored task with [{"description": null}] passes
    request validation and the title guard, the [None] is merged into the
    task's dump, and rebuilding the [Task] from it raises a [ValidationError] the
    application does not handle (answered 500, not 400 or 404); the store
    is unchanged.  The same happens for any patch with a [null] field that
    passes the title guard. *)
Theorem C10_patch_null_unhandled (s : Store) (i : Z) (t : Task) :
  tasks s !! i = Some t -> 1 <= i ->
  parse_TaskPatch (mkBody None (Some JNull) None)
    = Some (mkTaskPatch Unset SetNone Unset) /\
  patch_title_rejected (mkTaskPatch Unset SetNone Unset) = false /\
  patch_task (mkTaskPatch Unset SetNone Unset) i s = (Unhandled, s) /\
  serve (ReqPatch i (mkBody None (Some JNull) None)) s = (RespError 500, s) /\
  (forall p, has_null p = true -> patch_title_rejected p = false ->
     patch_task p i s = (Unhandled, s)).
Proof.
  intros Hi Hi1.
  assert (Hgen : forall p, has_null p = true -> patch_title_rejected p = false ->
            patch_task p i s = (Unhandled, s)).
  { intros p Hn Hr. rewrite patch_task_eq, Hi, Hr.
    unfold has_null in Hn.
    destruct (tp_title p), (tp_description p), (tp_status p);
      simpl in *; try discriminate; reflexivity. }
  split; [reflexivity|]. split; [reflexivity|].
  split; [apply Hgen; reflexivity|]. split; [|exact Hgen].
  simpl. unfold parse_path_id.
  replace (1 <=? i) with true by (symmetry; apply Z.leb_le; lia).
  rewrite Hgen by reflexivity. reflexivity.
Qed.

Lemma C10_witness :
  tasks store_one !! 1 = Some (mkTask 1 (py "Buy milk") (py "2%") pending) /\
  serve (ReqPatch 1 (mkBody None (Some JNull) None)) store_one
    = (RespError 500, store_one).
Proof.
  split; [vm_compute; reflexivity|].
  apply (C10_patch_null_unhandled store_one 1 (mkTask 1 (py "Buy milk") (py "2%") pending)).
  - vm_compute. reflexivity.
  - lia.
Defined.

Lemma parse_TaskBase_ok (t d : pystr) (st : TaskStatus) :
  t <> [] ->
  parse_TaskBase (mkBody (Some (JStr t)) (Some (JStr d))
                    (Some (JStr (string_of_status st))))
    = Some (mkTaskBase t d st).
Proof.
  intros Ht. unfold parse_TaskBase. simpl.
  destruct t as [|c t]; [congruence|]. simpl.
  destruct st; reflexivity.
Qed.

Lemma parse_path_id_ok (i : Z) : 1 <= i -> parse_path_id i = Some i.
Proof.
  intros H. unfold parse_path_id.
  replace (1 <=? i) with true by (symmetry; apply Z.leb_le; lia).
  reflexivity.
Qed.

(** C2, as stated: a POST whose title is [""] is answered 400. *)
Lemma C2_counterexample :
  fst (serve (ReqCreate (mkBody (Some (JStr [])) (Some (JStr (py "x")))
                           (Some (JStr (py "pending"))))) empty_store)
    <> RespError 400.
Proof. vm_compute. discriminate. Qed.



(** C6: [GET /tasks] never fails and returns the store unchanged; on every
    reachable store it returns exactly the stored tasks, in strictly
    ascending id order, and nothing when the store is empty.  After any
    sequence of requests without a delete from the initial store, in
    which [n] creates succeed, it returns exactly [n] tasks with ids
    [1, ..., n] in this order. *)
Theorem C6_list_tasks_sorted :
  (forall s, exists l, list_tasks s = (Ok l, s)) /\
  (forall s, reachable s ->
     exists l, list_tasks s = (Ok l, s) /\
       (forall t, In t l <-> exists k, tasks s !! k = Some t) /\
       StronglySorted id_lt l /\
       (tasks s = ∅ -> l = [])) /\
  (forall reqs, Forall (fun q => is_delete q = false) reqs ->
     let n := length (created_ids (fst (run reqs empty_store))) in
     exists l, list_tasks (snd (run reqs empty_store))
                 = (Ok l, snd (run reqs empty_store)) /\
       length l = n /\ map id l = zrange 1 n).
Proof.
  split; [|split].
  - intros s. eexists. apply list_tasks_eq.
  - intros s Hr. destruct (list_tasks_props s (reachable_store_inv s Hr))
      as (Hin & Hs & _).
    eexists. split; [apply list_tasks_eq|]. split; [exact Hin|].
    split; [exact Hs|]. intros ->. rewrite map_to_list_empty. reflexivity.
  - intros reqs Hd n.
    set (s' := snd (run reqs empty_store)).
    assert (Hr : reachable s') by (apply run_reachable, reachable_init).
    destruct (list_tasks_props s' (reachable_store_inv s' Hr))
      as (_ & Hs & Hperm).
    set (l := merge_sort id_le (map snd (map_to_list (tasks s')))) in *.
    destruct (created_ids_run reqs empty_store) as (Hcs & _).
    assert (Hkeys : Permutation (map fst (map_to_list (tasks s')))
                      (created_ids (fst (run reqs empty_store)))).
    { apply NoDup_Permutation.
      - rewrite map_fmap_eq. apply NoDup_fst_map_to_list.
      - apply sorted_lt_nodup. exact Hcs.
      - intros k. rewrite !list_elem_of_In, in_keys.
        unfold s'. rewrite (run_keys reqs empty_store Hd k).
        simpl. rewrite lookup_empty. split; [intros [[? ?]|H]; [discriminate|exact H]|].
        intros H. right. exact H. }
    assert (Hids : map id l = created_ids (fst (run reqs empty_store))).
    { apply (StronglySorted_unique_strong Z.lt).
      - intros. lia.
      - apply sorted_id_lt_map. exact Hs.
      - exact Hcs.
      - rewrite Hperm. exact Hkeys. }
    exists l. split; [apply list_tasks_eq|]. split.
    + rewrite <- (length_map id l), Hids. reflexivity.
    + rewrite Hids, created_consecutive. reflexivity.
Qed.

Lemma C6_witness :
  exists l, list_tasks (snd (run [ReqCreate body_buy_milk; ReqCreate body_buy_milk]
                                 empty_store))
              = (Ok l, snd (run [ReqCreate body_buy_milk; ReqCreate body_buy_milk]
                                 empty_store)) /\
    length l = 2%nat /\ map id l = [1; 2].
Proof.
  destruct C6_list_tasks_sorted as (_ & _ & H).
  exact (H [ReqCreate body_buy_milk; ReqCreate body_buy_milk]
           ltac:(repeat constructor)).
Defined.

(** ** Further properties of the handlers and the request layer *)

Lemma status_of_string_some (s : pystr) (st : TaskStatus) :
  status_of_string s = Some st -> s = string_of_status st.
Proof.
  unfold status_of_string.
  destruct (str_eqb s (py "pending")) eqn:E1.
  - intros [= <-]. apply str_eqb_spec. exact E1.
  - destruct (str_eqb s (py "completed")) eqn:E2; [|discriminate].
    intros [= <-]. apply str_eqb_spec. exact E2.
Qed.

Lemma parse_str_some (n : nat) (v : json) (s : pystr) :
  parse_str n v = Some s -> v = JStr s /\ (n <= length s)%nat.
Proof.
  destruct v as [|s'| |]; simpl; try discriminate.
  destruct ((n <=? length s')%nat) eqn:E; [|discriminate].
  intros [= <-]. apply Nat.leb_le in E. auto.
Qed.

Lemma parse_status_some (v : json) (st : TaskStatus) :
  parse_status v = Some st -> v = JStr (string_of_status st).
Proof.
  destruct v as [|s'| |]; simpl; try discriminate.
  intros H. apply status_of_string_some in H. congruence.
Qed.

(** Parsing a [TaskCreate]/[TaskUpdate] body succeeds exactly when the
    three keys are present, the title is a non-empty JSON string, the
    description a JSON string and the status the string of a
    [TaskStatus]; the parsed payload carries those strings unchanged. *)
Lemma parse_TaskBase_spec (b : Body) (p : TaskBase) :
  parse_TaskBase b = Some p <->
  b_title b = Some (JStr (tb_title p)) /\ tb_title p <> [] /\
  b_description b = Some (JStr (tb_description p)) /\
  b_status b = Some (JStr (string_of_status (tb_status p))).
Proof.
  split.
  - destruct b as [ti de st]. unfold parse_TaskBase. simpl.
    destruct ti as [ti|], de as [de|], st as [st|]; try discriminate.
    destruct (parse_str 1 ti) as [ti'|] eqn:E1; [|discriminate].
    destruct (parse_str 0 de) as [de'|] eqn:E2; [|discriminate].
    destruct (parse_status st) as [st'|] eqn:E3; [|discriminate].
    intros [= <-]. simpl.
    apply parse_str_some in E1 as [-> Hl], E2 as [-> _].
    apply parse_status_some in E3 as ->.
    repeat split; try reflexivity.
    intros ->. simpl in Hl. lia.
  - destruct b as [ti de st], p as [pt pd ps]. simpl.
    intros (-> & Hne & -> & ->).
    apply (parse_TaskBase_ok pt pd ps Hne).
Qed.

(** What a successful [POST /tasks] did. *)
Lemma serve_create_ok (b : Body) (s s' : Store) (c : Z) (t : Task) :
  serve (ReqCreate b) s = (RespTask c t, s') ->
  exists p, parse_TaskBase b = Some p /\ strip (tb_title p) <> [] /\
    1 <= next_id s /\ c = 201 /\
    t = mkTask (next_id s) (tb_title p) (tb_description p) (tb_status p) /\
    s' = mkStore (<[next_id s := t]> (tasks s)) (next_id s + 1).
Proof.
  simpl. destruct (parse_TaskBase b) as [p|]; [|discriminate].
  rewrite create_task_eq.
  destruct (str_eqb _ _) eqn:E; [discriminate|].
  destruct (1 <=? next_id s) eqn:E1; [|discriminate].
  simpl. intros [= <- <- <-]. exists p.
  apply str_eqb_false in E. apply Z.leb_le in E1.
  repeat split; auto.
Qed.

(** C2, amended: [title: str = Field(..., min_length=1)] rejects [""]
    while the body is parsed, so a POST with an empty title is answered
    422, whatever the other fields, and the store is unchanged; the
    handler's 400 guard is never reached for it.  A POST is answered 400
    exactly when its body parses and its title is non-empty but blank
    after [strip()], and then the store is unchanged. *)
Theorem C2_empty_title_rejected_422 :
  (forall (s : Store) (de st : option json),
     serve (ReqCreate (mkBody (Some (JStr [])) de st)) s = (RespError 422, s)) /\
  (forall (s : Store) (b : Body),
     fst (serve (ReqCreate b) s) = RespError 400 <->
     exists p, parse_TaskBase b = Some p /\ tb_title p <> [] /\
       strip (tb_title p) = []) /\
  (forall (s : Store) (b : Body),
     fst (serve (ReqCreate b) s) = RespError 400 ->
     snd (serve (ReqCreate b) s) = s).
Proof.
  split; [|split].
  - intros s de st. simpl. unfold parse_TaskBase. simpl.
    destruct de, st; reflexivity.
  - intros s b. simpl serve. split.
    + destruct (parse_TaskBase b) as [p|] eqn:Ep; [|discriminate].
      rewrite create_task_eq.
      destruct (str_eqb (strip (tb_title p)) []) eqn:E.
      * intros _. exists p. apply str_eqb_spec in E.
        apply parse_TaskBase_spec in Ep as (_ & Hne & _).
        split; [reflexivity|]. split; assumption.
      * destruct (1 <=? next_id s); discriminate.
    + intros (p & Ep & _ & Hs). rewrite Ep, create_task_eq.
      apply str_eqb_spec in Hs. rewrite Hs. reflexivity.
  - intros s b. simpl serve.
    destruct (parse_TaskBase b) as [p|]; [|reflexivity].
    rewrite create_task_eq.
    destruct (str_eqb (strip (tb_title p)) []); [reflexivity|].
    destruct (1 <=? next_id s); [discriminate|reflexivity].
Qed.

(** The title U+00A0 U+3000 (a no-break space and an ideographic space)
    is blank for [strip()], so its POST is answered 400; [""] is answered
    422. *)
Lemma C2_witness :
  serve (ReqCreate (mkBody (Some (JStr [])) None None)) store_one
    = (RespError 422, store_one) /\
  fst (serve (ReqCreate (mkBody (Some (JStr [160; 12288]))
                           (Some (JStr (py "x"))) (Some (JStr (py "pending")))))
         store_one) = RespError 400.
Proof.
  destruct C2_empty_title_rejected_422 as (H422 & H400 & _).
  split; [apply H422|].
  apply (proj2 (H400 store_one _)).
  exists (mkTaskBase [160; 12288] (py "x") pending).
  split; [vm_compute; reflexivity|].
  split; [discriminate | vm_compute; reflexivity].
Defined.

(** [POST /tasks] then [GET /tasks/{id}]: the created task, with the
    body's title, description and status as sent, is answered 201 and is
    then read back unchanged with 200. *)
Theorem create_then_get (s s' : Store) (b : Body) (c : Z) (t : Task) :
  serve (ReqCreate b) s = (RespTask c t, s') ->
  c = 201 /\
  b_title b = Some (JStr (title t)) /\
  b_description b = Some (JStr (description t)) /\
  b_status b = Some (JStr (string_of_status (status t))) /\
  serve (ReqGet (id t)) s' = (RespTask 200 t, s').
Proof.
  intros H. apply serve_create_ok in H as (p & Hp & _ & Hn & Hc & Ht & Hs').
  apply parse_TaskBase_spec in Hp as (Hti & _ & Hde & Hst).
  subst t. simpl. repeat split; auto.
  simpl. rewrite parse_path_id_ok by exact Hn. unfold get_task.
  rewrite get_task_or_404_eq, Hs'. simpl. rewrite lookup_insert_eq.
  reflexivity.
Qed.

Lemma create_then_get_witness :
  serve (ReqCreate body_buy_milk) empty_store
    = (RespTask 201 (mkTask 1 (py "Buy milk") (py "2%") pending), store_one) /\
  serve (ReqGet 1) store_one
    = (RespTask 200 (mkTask 1 (py "Buy milk") (py "2%") pending), store_one).
Proof.
  assert (H : serve (ReqCreate body_buy_milk) empty_store
                = (RespTask 201 (mkTask 1 (py "Buy milk") (py "2%") pending), store_one))
    by (vm_compute; reflexivity).
  split; [exact H|].
  exact (proj2 (proj2 (proj2 (proj2 (create_then_get _ _ _ _ _ H))))).
Defined.

(** A successful create on a reachable store adds exactly one task under
    a fresh key and leaves every other key as it was. *)
Theorem create_adds_one (s s' : Store) (b : Body) (c : Z) (t : Task) :
  reachable s -> serve (ReqCreate b) s = (RespTask c t, s') ->
  tasks s !! id t = None /\ tasks s' !! id t = Some t /\
  size (tasks s') = S (size (tasks s)) /\
  (forall k, k <> id t -> tasks s' !! k = tasks s !! k).
Proof.
  intros Hr H. destruct (reachable_store_inv s Hr) as [_ Hinv].
  apply serve_create_ok in H as (p & _ & _ & _ & _ & Ht & Hs').
  assert (Hfresh : tasks s !! next_id s = None).
  { destruct (tasks s !! next_id s) as [t0|] eqn:E; [|reflexivity].
    destruct (Hinv _ _ E) as (_ & _ & Hlt & _). lia. }
  subst t s'. simpl. split; [exact Hfresh|]. split; [apply lookup_insert_eq|].
  split; [apply map_size_insert_None; exact Hfresh|].
  intros k Hk. apply lookup_insert_ne. congruence.
Qed.

Lemma create_adds_one_witness :
  reachable store_one /\
  tasks store_one !! 2 = None /\
  size (tasks (snd (serve (ReqCreate body_buy_milk) store_one)))
    = S (size (tasks store_one)).
Proof.
  split; [apply store_one_reachable|].
  destruct (create_adds_one store_one
              (snd (serve (ReqCreate body_buy_milk) store_one))
              body_buy_milk 201 (mkTask 2 (py "Buy milk") (py "2%") pending)
              store_one_reachable ltac:(vm_compute; reflexivity))
    as (H1 & _ & H2 & _).
  split; [exact H1|exact H2].
Defined.

(** A successful [DELETE /tasks/{id}] removes exactly that key (the store
    shrinks by one, the counter is kept); a second delete, or a get, of
    the same id then answers 404. *)
Theorem delete_removes_once (s s' : Store) (i : Z) :
  serve (ReqDelete i) s = (RespNoContent, s') ->
  is_Some (tasks s !! i) /\
  tasks s' = delete i (tasks s) /\ next_id s' = next_id s /\
  S (size (tasks s')) = size (tasks s) /\
  serve (ReqDelete i) s' = (RespError 404, s') /\
  serve (ReqGet i) s' = (RespError 404, s').
Proof.
  simpl. destruct (parse_path_id i) as [j|] eqn:Hj; [|discriminate].
  unfold parse_path_id in Hj.
  destruct (1 <=? i); [injection Hj as <-|discriminate].
  rewrite delete_task_eq. destruct (tasks s !! i) as [t|] eqn:Hi;
    [|discriminate].
  simpl. intros [= <-]. simpl.
  split; [eexists; reflexivity|]. split; [reflexivity|]. split; [reflexivity|].
  split; [rewrite (map_size_delete_Some i (tasks s)) by eauto;
          pose proof (map_size_ne_0_lookup_2 (tasks s) i ltac:(eauto)); lia|].
  rewrite delete_task_eq, get_task_or_404_eq. simpl.
  rewrite lookup_delete_eq. split; reflexivity.
Qed.

Lemma delete_removes_once_witness :
  serve (ReqDelete 1) store_one = (RespNoContent, mkStore ∅ 2) /\
  serve (ReqDelete 1) (mkStore ∅ 2) = (RespError 404, mkStore ∅ 2).
Proof.
  assert (H : serve (ReqDelete 1) store_one = (RespNoContent, mkStore ∅ 2))
    by (vm_compute; reflexivity).
  split; [exact H|].
  exact (proj1 (proj2 (proj2 (proj2 (proj2 (delete_removes_once _ _ _ H)))))).
Defined.

(** Only creates and deletes change which ids are stored, and only creates
    move the counter: every other request (in particular [PUT] and
    [PATCH], successful or not) keeps the set of keys and [next_id]. *)
Theorem non_create_delete_keep_keys (q : Request) (s : Store) :
  (forall b, q <> ReqCreate b) -> is_delete q = false ->
  dom (tasks (snd (serve q s))) = dom (tasks s) /\
  next_id (snd (serve q s)) = next_id s.
Proof.
  intros Hc Hd.
  assert (Hcr : created_ids [(q, fst (serve q s))] = []).
  { destruct q; try reflexivity. exfalso. eapply Hc. reflexivity. }
  pose proof (serve_counter q s) as Hn. rewrite Hcr in Hn.
  split; [|exact Hn].
  apply set_eq. intros k. rewrite !elem_of_dom.
  rewrite (serve_keys q s k Hd), Hcr. simpl. tauto.
Qed.

Lemma non_create_delete_keep_keys_witness :
  dom (tasks (snd (serve (ReqPut 1 body_buy_milk) store_one)))
    = dom (tasks store_one) /\
  next_id (snd (serve (ReqPut 1 body_buy_milk) store_one)) = next_id store_one.
Proof.
  apply non_create_delete_keep_keys; [discriminate|reflexivity].
Defined.

(** [PUT /tasks/{id}] is idempotent: sending the same request twice gives
    the same response and the same store as sending it once, on any store
    and any body. *)
Theorem put_idempotent (s : Store) (i : Z) (b : Body) :
  serve (ReqPut i b) (snd (serve (ReqPut i b) s)) = serve (ReqPut i b) s.
Proof.
  simpl. destruct (parse_path_id i) as [j|] eqn:Hj, (parse_TaskBase b) as [p|];
    try reflexivity.
  rewrite (update_task_eq p j s).
  destruct (tasks s !! j) as [t|] eqn:Ht;
    [|simpl; rewrite update_task_eq, Ht; reflexivity].
  destruct (str_eqb _ _) eqn:E;
    [simpl; rewrite update_task_eq, Ht, E; reflexivity|].
  destruct (1 <=? j) eqn:E1;
    [|simpl; rewrite update_task_eq, Ht, E, E1; reflexivity].
  simpl. rewrite update_task_eq. simpl.
  rewrite lookup_insert_eq, E, E1, insert_insert_eq. reflexivity.
Qed.

Lemma patch_value_twice {A} (o : A) (f : PatchField A) :
  patch_value (patch_value o f) f = patch_value o f.
Proof. destruct f; reflexivity. Qed.

(** [PATCH /tasks/{id}] is idempotent: sending the same request twice
    gives the same response and the same store as sending it once, on any
    store and any body (a rejected or failing patch changes nothing, a
    successful one already holds the patched values). *)
Theorem patch_idempotent (s : Store) (i : Z) (b : Body) :
  serve (ReqPatch i b) (snd (serve (ReqPatch i b) s)) = serve (ReqPatch i b) s.
Proof.
  simpl. destruct (parse_path_id i) as [j|], (parse_TaskPatch b) as [p|];
    try reflexivity.
  rewrite (patch_task_eq p j s).
  destruct (tasks s !! j) as [t|] eqn:Ht;
    [|simpl; rewrite patch_task_eq, Ht; reflexivity].
  destruct (patch_title_rejected p) eqn:Hr;
    [simpl; rewrite patch_task_eq, Ht, Hr; reflexivity|].
  destruct (task_of_fields _ _ _ _) as [t1|] eqn:Hf;
    [|simpl; rewrite patch_task_eq, Ht, Hr, Hf; reflexivity].
  simpl. rewrite patch_task_eq. simpl. rewrite lookup_insert_eq, Hr.
  pose proof Hf as Hf'.
  apply task_of_fields_some in Hf' as (Hid & Hti & _ & Hde & Hst).
  assert (Hn : has_null p = false).
  { unfold has_null. destruct (tp_title p), (tp_description p), (tp_status p);
      simpl in *; congruence. }
  unfold has_null in Hn. apply orb_false_iff in Hn as [Hn Hs3].
  apply orb_false_iff in Hn as [Hs1 Hs2].
  rewrite (update_field_not_none (title t) _ Hs1) in Hti, Hf.
  rewrite (update_field_not_none (description t) _ Hs2) in Hde, Hf.
  rewrite (update_field_not_none (status t) _ Hs3) in Hst, Hf.
  rewrite (update_field_not_none (title t1) _ Hs1),
    (update_field_not_none (description t1) _ Hs2),
    (update_field_not_none (status t1) _ Hs3).
  injection Hti as Hti. injection Hde as Hde. injection Hst as Hst.
  rewrite <- Hti, <- Hde, <- Hst, Hid, !patch_value_twice.
  rewrite Hf, insert_insert_eq. reflexivity.
Qed.

(** [PATCH /tasks/{id}] with an empty body on a stored task of a
    reachable store answers 200 with the task unchanged and leaves the
    store as it was. *)
Theorem empty_patch_noop (s : Store) (i : Z) (t : Task) :
  reachable s -> tasks s !! i = Some t ->
  serve (ReqPatch i (mkBody None None None)) s = (RespTask 200 t, s).
Proof.
  intros Hr Hi. pose proof (reachable_store_inv s Hr) as Hinv.
  destruct (proj2 Hinv i t Hi) as (_ & Hi1 & _).
  simpl. rewrite parse_path_id_ok by exact Hi1. simpl.
  rewrite (patch_task_ok s i t (mkTaskPatch Unset Unset Unset) Hinv Hi
             eq_refl eq_refl).
  simpl. destruct t as [ti tt td ts]. unfold patched. simpl.
  rewrite insert_id by exact Hi. destruct s. reflexivity.
Qed.

Lemma empty_patch_noop_witness :
  reachable store_one /\
  serve (ReqPatch 1 (mkBody None None None)) store_one
    = (RespTask 200 (mkTask 1 (py "Buy milk") (py "2%") pending), store_one).
Proof.
  split; [apply store_one_reachable|].
  apply empty_patch_noop; [apply store_one_reachable|vm_compute; reflexivity].
Defined.

(** Order of the checks on [PUT] and [PATCH]: an empty title [""] is
    refused with 422 by body parsing before the store is consulted; for an
    id that is not stored, any body that parses (a blank title included)
    is answered 404 before the handler's 400 title guard is reached. *)
Theorem check_precedence (s : Store) (i : Z) :
  (forall de st, serve (ReqPut i (mkBody (Some (JStr [])) de st)) s
                   = (RespError 422, s)) /\
  (forall de st, serve (ReqPatch i (mkBody (Some (JStr [])) de st)) s
                   = (RespError 422, s)) /\
  (1 <= i -> tasks s !! i = None ->
   (forall b, parse_TaskBase b <> None ->
      serve (ReqPut i b) s = (RespError 404, s)) /\
   (forall b, parse_TaskPatch b <> None ->
      serve (ReqPatch i b) s = (RespError 404, s))).
Proof.
  split; [|split].
  - intros de st. simpl. unfold parse_TaskBase. simpl.
    destruct (parse_path_id i), de, st; reflexivity.
  - intros de st. simpl. unfold parse_TaskPatch. simpl.
    destruct (parse_path_id i); reflexivity.
  - intros Hi1 Hi. split.
    + intros b Hb. simpl. rewrite parse_path_id_ok by exact Hi1.
      destruct (parse_TaskBase b); [|congruence].
      rewrite update_task_eq, Hi. reflexivity.
    + intros b Hb. simpl. rewrite parse_path_id_ok by exact Hi1.
      destruct (parse_TaskPatch b); [|congruence].
      rewrite patch_task_eq, Hi. reflexivity.
Qed.

Lemma check_precedence_witness :
  serve (ReqPut 5 (mkBody (Some (JStr (py "   "))) (Some (JStr (py "x")))
                     (Some (JStr (py "pending"))))) store_one
    = (RespError 404, store_one).
Proof.
  destruct (check_precedence store_one 5) as (_ & _ & H).
  destruct (H ltac:(lia) ltac:(vm_compute; reflexivity)) as [Hput _].
  apply Hput. vm_compute. discriminate.
Defined.

(** On a reachable store the only request answered 500 (an exception the
    application does not handle) is a [PATCH] whose parsed body has a
    field sent as [null]; create, get, replace, delete and list never
    answer 500. *)
Theorem server_error_only_null_patch (s : Store) (q : Request) :
  reachable s -> fst (serve q s) = RespError 500 ->
  exists i b p, q = ReqPatch i b /\ parse_TaskPatch b = Some p /\
                has_null p = true.
Proof.
  intros Hr. pose proof (reachable_store_inv s Hr) as Hinv.
  destruct Hinv as [Hn Hall].
  destruct q as [| |b|i|i b|i b|i]; simpl; try discriminate.
  - destruct (parse_TaskBase b) as [p|]; [|discriminate].
    rewrite create_task_eq. destruct (str_eqb _ _); [discriminate|].
    replace (1 <=? next_id s) with true by (symmetry; apply Z.leb_le; lia).
    discriminate.
  - destruct (parse_path_id i) as [j|]; [|discriminate].
    unfold get_task. rewrite get_task_or_404_eq.
    destruct (tasks s !! j); discriminate.
  - destruct (parse_path_id i) as [j|] eqn:Hj, (parse_TaskBase b) as [p|];
      try discriminate.
    unfold parse_path_id in Hj.
    destruct (1 <=? i) eqn:E; [injection Hj as <-|discriminate].
    rewrite update_task_eq. destruct (tasks s !! i); [|discriminate].
    destruct (str_eqb _ _); [discriminate|]. rewrite E. discriminate.
  - destruct (parse_path_id i) as [j|], (parse_TaskPatch b) as [p|] eqn:Hp;
      try discriminate.
    intros H. exists i, b, p. split; [reflexivity|]. split; [exact Hp|].
    destruct (has_null p) eqn:Hnull; [reflexivity|exfalso].
    destruct (tasks s !! j) as [t|] eqn:Ht.
    + destruct (patch_title_rejected p) eqn:Hrej.
      * rewrite patch_task_eq, Ht, Hrej in H. discriminate.
      * rewrite (patch_task_ok s j t p (conj Hn Hall) Ht Hnull Hrej) in H.
        discriminate.
    + rewrite patch_task_eq, Ht in H. discriminate.
  - destruct (parse_path_id i) as [j|]; [|discriminate].
    rewrite delete_task_eq. destruct (tasks s !! j); discriminate.
Qed.

Lemma server_error_only_null_patch_witness :
  exists i b p, ReqPatch 1 (mkBody None (Some JNull) None) = ReqPatch i b /\
    parse_TaskPatch b = Some p /\ has_null p = true.
Proof.
  apply (server_error_only_null_patch store_one).
  - apply store_one_reachable.
  - vm_compute. reflexivity.
Defined.

(** A successful [PATCH /tasks/{id}] answers 200, and a [GET] of the same
    id right after returns exactly the task the patch answered with. *)
Theorem patch_then_get (s s' : Store) (i : Z) (b : Body) (c : Z) (t : Task) :
  serve (ReqPatch i b) s = (RespTask c t, s') ->
  c = 200 /\ serve (ReqGet i) s' = (RespTask 200 t, s').
Proof.
  simpl. destruct (parse_path_id i) as [j|] eqn:Hj, (parse_TaskPatch b) as [p|];
    try discriminate.
  unfold parse_path_id in Hj.
  destruct (1 <=? i) eqn:E; [injection Hj as <-|discriminate].
  rewrite patch_task_eq. destruct (tasks s !! i); [|discriminate].
  destruct (patch_title_rejected p); [discriminate|].
  destruct (task_of_fields _ _ _ _) as [t1|]; [|discriminate].
  simpl. intros [= <- <- <-]. split; [reflexivity|].
  unfold get_task. rewrite get_task_or_404_eq. simpl.
  rewrite lookup_insert_eq. reflexivity.
Qed.

Lemma patch_then_get_witness :
  serve (ReqGet 1)
    (snd (serve (ReqPatch 1 (mkBody None None (Some (JStr (py "completed")))))
            store_one))
  = (RespTask 200 (mkTask 1 (py "Buy milk") (py "2%") completed),
     snd (serve (ReqPatch 1 (mkBody None None (Some (JStr (py "completed")))))
            store_one)).
Proof.
  apply (proj2 (patch_then_get store_one _ 1
                  (mkBody None None (Some (JStr (py "completed")))) 200
                  (mkTask 1 (py "Buy milk") (py "2%") completed)
                  ltac:(vm_compute; reflexivity))).
Defined.

(** The counter counts successful creates: after any sequence of requests
    from the initial store, [next_id] is one more than the number of
    tasks created, whatever was deleted in between. *)
Theorem next_id_counts_creates (reqs : list Request) :
  next_id (snd (run reqs empty_store))
    = 1 + Z.of_nat (length (created_ids (fst (run reqs empty_store)))).
Proof.
  cut (forall s, next_id (snd (run reqs s))
                   = next_id s + Z.of_nat (length (created_ids (fst (run reqs s))))).
  { intros H. apply H. }
  induction reqs as [|q qs IH]; intros s; [simpl; lia|].
  rewrite run_cons. simpl fst. simpl snd. rewrite created_ids_cons, length_app.
  pose proof (serve_counter q s) as Hc. rewrite IH.
  destruct (created_ids [(q, fst (serve q s))]) as [|z [|z' l]];
    [| |contradiction]; simpl length.
  - rewrite Hc. lia.
  - destruct Hc as [_ ->]. lia.
Qed.
